(** * Task store service (backend/app.py)

    A shallow embedding of the three Flask handlers of [backend/app.py]
    ([get_tasks], [add_task], [update_task]) over the module-level list
    [tasks], with the store threaded explicitly through every handler. *)

From Stdlib Require Import ZArith Lia.
From stdpp Require Import base list strings gmap.

Local Open Scope Z_scope.
Set Warnings "-register-all".

(** ** Values exchanged with the client

    [request.get_json()] hands the handler the parsed body, and [jsonify]
    turns a Python value back into a body.  Both directions are the identity
    on this type: [JNull] is [None], [JObj] is a [dict] keyed by strings.
    A non-integer number is carried as its binary64 bit pattern; no handler
    ever inspects it. *)
Inductive json : Type :=
  | JNull
  | JBool (b : bool)
  | JInt (n : Z)
  | JFloat (bits : Z)
  | JStr (s : string)
  | JArr (items : list json)
  | JObj (fields : gmap string json).

(** Exceptions a handler body can raise. *)
Inductive py_error : Type :=
  | KeyError (key : string)
  | TypeError
  | AttributeError.

(** [data[key]]: a dict subscripts by key and raises [KeyError] when the key
    is missing; [None], numbers, booleans, strings and lists raise
    [TypeError] when subscripted with a string. *)
Definition py_getitem (data : json) (key : string) : py_error + json :=
  match data with
  | JObj fields =>
      match fields !! key with
      | Some v => inr v
      | None => inl (KeyError key)
      end
  | _ => inl TypeError
  end.

(** [data.get(key, default)]: only a dict has a [get] attribute. *)
Definition py_get (data : json) (key : string) (dflt : json)
  : py_error + json :=
  match data with
  | JObj fields => inr (default dflt (fields !! key))
  | _ => inl AttributeError
  end.

(** ** The store

    Every element of [tasks] is a dict built by [add_task] with the three
    keys ['id'], ['task'] and ['completed']; [update_task] only ever assigns
    to ['completed'].  The dict is therefore kept as a record.  ['task'] and
    ['completed'] hold whatever value the request body carried. *)
Module Task.
Record t : Type := mk { id : Z; task : json; completed : json }.
End Task.

(** [len(tasks)], a Python [int]. *)
Definition len (tasks : list Task.t) : Z := Z.of_nat (length tasks).

(** [jsonify(task)] for one stored dict, and [jsonify(tasks)] for the list. *)
Definition jsonify_task (t : Task.t) : json :=
  JObj {[ "id" := JInt (Task.id t);
          "task" := Task.task t;
          "completed" := Task.completed t ]}.

Definition jsonify_tasks (tasks : list Task.t) : json :=
  JArr (jsonify_task <$> tasks).

(** What a view function hands back to Flask: a body with a status code, or
    an exception that escapes the handler. *)
Record response : Type := Response { body : json; status : Z }.

Inductive outcome : Type :=
  | Return (r : response)
  | Raise (e : py_error).

(** A handler takes the store and gives back its outcome together with the
    store it leaves behind. *)
Definition handler : Type := list Task.t -> outcome * list Task.t.

(** ** The three view functions *)

(** [GET /tasks]; a bare [jsonify(...)] return value is sent with 200. *)
Definition get_tasks : handler := fun tasks =>
  (Return (Response (jsonify_tasks tasks) 200), tasks).

(** [POST /tasks].  The dict literal is evaluated before [tasks.append], so
    a failing [data['task']] leaves the list as it was. *)
Definition add_task (data : json) : handler := fun tasks =>
  match py_getitem data "task" with
  | inl e => (Raise e, tasks)
  | inr v =>
      let task := Task.mk (len tasks + 1) v (JBool false) in
      (Return (Response (jsonify_task task) 201), tasks ++ [task])
  end.

(** [PUT /tasks/<int:task_id>].  The [for] loop walks the list from the
    front and returns from inside its body at the first dict whose ['id']
    equals [task_id]; falling off the end gives the 404 answer. *)
Definition not_found : json := JObj {[ "error" := JStr "Task not found" ]}.

Fixpoint update_task (task_id : Z) (data : json) (tasks : list Task.t)
  : outcome * list Task.t :=
  match tasks with
  | [] => (Return (Response not_found 404), [])
  | task :: rest =>
      if decide (Task.id task = task_id) then
        match py_get data "completed" (Task.completed task) with
        | inl e => (Raise e, task :: rest)
        | inr c =>
            let task' := Task.mk (Task.id task) (Task.task task) c in
            (Return (Response (jsonify_task task') 200), task' :: rest)
        end
      else
        let '(out, rest') := update_task task_id data rest in
        (out, task :: rest')
  end.

(** ** Requests and runs of the service *)

(** The three routes, each request carrying what its view function reads:
    the path parameter and the parsed body. *)
Inductive request : Type :=
  | GET_tasks
  | POST_tasks (data : json)
  | PUT_tasks (task_id : Z) (data : json).

Definition dispatch (req : request) : handler :=
  match req with
  | GET_tasks => get_tasks
  | POST_tasks data => add_task data
  | PUT_tasks task_id data => update_task task_id data
  end.

(** The store after serving a list of requests one after the other. *)
Definition serve (reqs : list request) (tasks : list Task.t) : list Task.t :=
  fold_left (fun s req => (dispatch req s).2) reqs tasks.

(** [tasks = []] at import time, then any number of creates and updates. *)
Inductive reachable : list Task.t -> Prop :=
  | reachable_init : reachable []
  | reachable_add data s :
      reachable s -> reachable (add_task data s).2
  | reachable_update task_id data s :
      reachable s -> reachable (update_task task_id data s).2.

(** ** Vocabulary for the statements *)

(** The field of a body, when the body is an object. *)
Definition field (data : json) (key : string) : option json :=
  match data with
  | JObj fields => fields !! key
  | _ => None
  end.

(** Position and value of the first stored dict with a given ['id']. *)
Definition first_match (task_id : Z) (tasks : list Task.t)
  : option (nat * Task.t) :=
  list_find (fun t => Task.id t = task_id) tasks.

(** The two fields of a stored dict that no handler assigns to. *)
Definition identity (t : Task.t) : Z * json := (Task.id t, Task.task t).

(** The two bodies a client sends: [{"task": v}] and [{"completed": c}]. *)
Definition task_body (v : json) : json := JObj {[ "task" := v ]}.
Definition completed_body (c : json) : json := JObj {[ "completed" := c ]}.

(** The task at position [i] (counted from 0) has id [i + 1]. *)
Definition numbered (tasks : list Task.t) : Prop :=
  forall (i : nat) t, tasks !! i = Some t -> Task.id t = Z.of_nat i + 1.

(** [t] sits at position [i] and no dict before it has its ['id']: the loop
    of [update_task] stops there. *)
Definition first_at (i : nat) (t : Task.t) (tasks : list Task.t) : Prop :=
  tasks !! i = Some t /\
  forall (j : nat) u,
    tasks !! j = Some u -> (j < i)%nat -> Task.id u <> Task.id t.

(** The value a request gets stored as the ['task'] of a new dict: the
    ['task'] field of the body of a create, nothing for any other request
    and for a create whose lookup fails. *)
Definition posted (req : request) : option json :=
  match req with
  | POST_tasks data => field data "task"
  | _ => None
  end.

(** ** Basic facts about the handlers *)

Lemma py_getitem_inr data key v :
  py_getitem data key = inr v <-> field data key = Some v.
Proof.
  destruct data; simpl; try (split; discriminate).
  destruct (fields !! key); split; congruence.
Qed.

Lemma serve_cons req reqs tasks :
  serve (req :: reqs) tasks = serve reqs (dispatch req tasks).2.
Proof. done. Qed.

Lemma add_task_some data v tasks :
  field data "task" = Some v ->
  add_task data tasks
  = (Return (Response
               (jsonify_task (Task.mk (len tasks + 1) v (JBool false))) 201),
     tasks ++ [Task.mk (len tasks + 1) v (JBool false)]).
Proof.
  intros Hv. apply py_getitem_inr in Hv. unfold add_task. by rewrite Hv.
Qed.

Lemma len_app tasks t : len (tasks ++ [t]) = len tasks + 1.
Proof. unfold len. rewrite length_app. simpl. lia. Qed.

Section update_task_facts.
Variables (task_id : Z) (data : json).

(** Falling off the end of the loop. *)
Lemma update_task_miss tasks :
  Forall (fun t => Task.id t <> task_id) tasks ->
  update_task task_id data tasks = (Return (Response not_found 404), tasks).
Proof.
  induction 1 as [|t rest Hne _ IH]; simpl; [done|].
  rewrite decide_False by done. by rewrite IH.
Qed.

(** The loop body runs at the first match, and only there. *)
Lemma update_task_hit tasks i t :
  first_match task_id tasks = Some (i, t) ->
  update_task task_id data tasks =
    match py_get data "completed" (Task.completed t) with
    | inl e => (Raise e, tasks)
    | inr c =>
        let t' := Task.mk (Task.id t) (Task.task t) c in
        (Return (Response (jsonify_task t') 200), <[i := t']> tasks)
    end.
Proof.
  unfold first_match.
  revert i. induction tasks as [|x rest IH]; intros i Hfind; [done|].
  simpl in Hfind. simpl.
  destruct (decide (Task.id x = task_id)) as [Heq|Hne].
  - injection Hfind as <- <-. by destruct (py_get _ _ _).
  - destruct (list_find _ rest) as [[j u]|] eqn:Hrest; [|done].
    simpl in Hfind. injection Hfind as <- <-.
    rewrite (IH j eq_refl). by destruct (py_get _ _ _).
Qed.

(** Whatever happens, every stored dict keeps its ['id'] and ['task']. *)
Lemma update_task_keeps tasks :
  Forall2 (fun t t' => Task.id t' = Task.id t /\ Task.task t' = Task.task t)
          tasks (update_task task_id data tasks).2.
Proof.
  induction tasks as [|x rest IH]; simpl; [constructor|].
  destruct (decide (Task.id x = task_id)).
  - destruct (py_get _ _ _); simpl; (constructor; [done|]);
      by apply Forall_Forall2_diag, Forall_true.
  - destruct (update_task task_id data rest) as [out rest'] eqn:E.
    simpl in *. by constructor.
Qed.
End update_task_facts.

(** ** One task from creation to completion

    [POST /tasks {"task": "buy milk"}], then [PUT /tasks/1
    {"completed": true}], then [GET /tasks]. *)
Example buy_milk_scenario :
  let milk := Task.mk 1 (JStr "buy milk") in
  let '(r1, s1) := add_task (task_body (JStr "buy milk")) [] in
  let '(r2, s2) := update_task 1 (completed_body (JBool true)) s1 in
  let '(r3, s3) := get_tasks s2 in
  r1 = Return (Response (jsonify_task (milk (JBool false))) 201) /\
  r2 = Return (Response (jsonify_task (milk (JBool true))) 200) /\
  r3 = Return (Response (JArr [jsonify_task (milk (JBool true))]) 200) /\
  s3 = [milk (JBool true)].
Proof. repeat split. Qed.

(** ** Create *)

(** C1. On a body with a ['task'] field, create gives the new task the id
    [len(tasks) + 1] and [completed = False], appends it at the end of the
    store and answers with that task and status 201; three creates from the
    empty store leave tasks with ids 1, 2, 3 in that order. *)
Theorem add_task_assigns_count_plus_one :
  (forall data v tasks,
      field data "task" = Some v ->
      let t := Task.mk (len tasks + 1) v (JBool false) in
      add_task data tasks
      = (Return (Response (jsonify_task t) 201), tasks ++ [t])) /\
  (forall d1 d2 d3 v1 v2 v3,
      field d1 "task" = Some v1 ->
      field d2 "task" = Some v2 ->
      field d3 "task" = Some v3 ->
      serve [POST_tasks d1; POST_tasks d2; POST_tasks d3] []
      = [Task.mk 1 v1 (JBool false);
         Task.mk 2 v2 (JBool false);
         Task.mk 3 v3 (JBool false)]).
Proof.
  split; [exact add_task_some|].
  intros d1 d2 d3 v1 v2 v3 H1 H2 H3.
  rewrite !serve_cons. simpl.
  rewrite (add_task_some d1 v1 [] H1). simpl.
  rewrite (add_task_some d2 v2 _ H2). simpl.
  by rewrite (add_task_some d3 v3 _ H3).
Qed.

Lemma add_task_assigns_count_plus_one_witness :
  add_task (task_body (JStr "buy milk")) []
  = (Return (Response
               (jsonify_task (Task.mk 1 (JStr "buy milk") (JBool false))) 201),
     [Task.mk 1 (JStr "buy milk") (JBool false)]) /\
  serve [POST_tasks (task_body (JStr "T1"));
         POST_tasks (task_body (JStr "T2"));
         POST_tasks (task_body (JStr "T3"))] []
  = [Task.mk 1 (JStr "T1") (JBool false);
     Task.mk 2 (JStr "T2") (JBool false);
     Task.mk 3 (JStr "T3") (JBool false)].
Proof.
  split.
  - apply (proj1 add_task_assigns_count_plus_one
             (task_body (JStr "buy milk")) (JStr "buy milk") []).
    reflexivity.
  - apply (proj2 add_task_assigns_count_plus_one); reflexivity.
Defined.

(** C8. A create whose body has no ['task'] field (an object without the
    key, or no object at all, as [None] for a missing body) answers with no
    response: the exception of the lookup [data['task']] escapes the
    handler, a [KeyError] for the missing key when the body is an object,
    and the store is left as it was.  The other way round, a create that
    does answer had a ['task'] field in its body. *)
Theorem add_task_needs_task_field data tasks :
  (field data "task" = None ->
   exists e,
     py_getitem data "task" = inl e /\
     add_task data tasks = (Raise e, tasks) /\
     (forall fields, data = JObj fields -> e = KeyError "task")) /\
  (forall r tasks',
      add_task data tasks = (Return r, tasks') ->
      exists v, field data "task" = Some v).
Proof.
  split.
  - intros Hnone. unfold add_task.
    destruct (py_getitem data "task") as [e|v] eqn:Hget.
    + exists e. split; [done|]. split; [done|].
      intros fields ->. simpl in *.
      rewrite Hnone in Hget. congruence.
    + apply py_getitem_inr in Hget. congruence.
  - intros r tasks' Hret. unfold add_task in Hret.
    destruct (py_getitem data "task") as [e|v] eqn:Hget; [done|].
    exists v. by apply py_getitem_inr.
Qed.

Lemma add_task_needs_task_field_witness :
  (exists e,
     py_getitem (JObj ∅) "task" = inl e /\
     add_task (JObj ∅) [] = (Raise e, []) /\
     (forall fields, JObj ∅ = JObj fields -> e = KeyError "task")) /\
  (exists v, field (task_body JNull) "task" = Some v).
Proof.
  split.
  - apply (proj1 (add_task_needs_task_field (JObj ∅) [])). reflexivity.
  - eapply (proj2 (add_task_needs_task_field (task_body JNull) [])).
    reflexivity.
Defined.

(** C10. The task a create stores is built from the ['task'] field of the
    body and the length of the store alone: its [completed] is [False]
    whatever the body says, and a further field in the body, ['completed']
    included, changes neither the answer nor the store.  Neither a create
    nor a list changes the [completed] of a task already stored, so a
    stored task whose [completed] is not [False] got it from an update. *)
Theorem add_task_ignores_other_fields :
  (forall data tasks r tasks',
      add_task data tasks = (Return r, tasks') ->
      exists v,
        field data "task" = Some v /\
        tasks' = tasks ++ [Task.mk (len tasks + 1) v (JBool false)] /\
        body r = jsonify_task (Task.mk (len tasks + 1) v (JBool false))) /\
  (forall fields1 fields2 tasks,
      fields1 !! "task" = fields2 !! "task" ->
      add_task (JObj fields1) tasks = add_task (JObj fields2) tasks) /\
  (forall req tasks i t,
      (forall task_id data, req <> PUT_tasks task_id data) ->
      (dispatch req tasks).2 !! i = Some t ->
      Task.completed t <> JBool false ->
      tasks !! i = Some t).
Proof.
  split; [|split].
  - intros data tasks r tasks' Hret. unfold add_task in Hret.
    destruct (py_getitem data "task") as [e|v] eqn:Hget; [done|].
    exists v. apply py_getitem_inr in Hget.
    injection Hret as <- <-. done.
  - intros fields1 fields2 tasks Hsame. unfold add_task. simpl.
    by rewrite Hsame.
  - intros req tasks i t Hput Hi Hc.
    destruct req as [|data|task_id data]; [done| |by destruct (Hput task_id data)].
    simpl in Hi. unfold add_task in Hi.
    destruct (py_getitem data "task") as [e|v]; [done|]. simpl in Hi.
    apply lookup_app_Some in Hi as [Hi|[_ Hi]]; [done|].
    apply list_lookup_singleton_Some in Hi as [_ <-]. done.
Qed.

Lemma add_task_ignores_other_fields_witness :
  (exists v,
     field (JObj {[ "task" := JStr "a"; "completed" := JBool true ]}) "task"
     = Some v /\
     [Task.mk 1 (JStr "a") (JBool false)]
     = [] ++ [Task.mk (len [] + 1) v (JBool false)] /\
     body (Response (jsonify_task (Task.mk 1 (JStr "a") (JBool false))) 201)
     = jsonify_task (Task.mk (len [] + 1) v (JBool false))) /\
  add_task (JObj {[ "task" := JStr "a"; "completed" := JBool true ]}) []
  = add_task (JObj {[ "task" := JStr "a" ]}) [] /\
  [Task.mk 1 (JStr "a") (JBool true)] !! 0%nat
  = Some (Task.mk 1 (JStr "a") (JBool true)).
Proof.
  split; [|split].
  - apply (proj1 add_task_ignores_other_fields
             (JObj {[ "task" := JStr "a"; "completed" := JBool true ]}) []).
    reflexivity.
  - apply (proj1 (proj2 add_task_ignores_other_fields)).
    reflexivity.
  - apply (proj2 (proj2 add_task_ignores_other_fields)
             GET_tasks [Task.mk 1 (JStr "a") (JBool true)] 0%nat).
    + intros task_id data H; discriminate.
    + reflexivity.
    + intros H; discriminate.
Defined.

(** ** List *)

Lemma jsonify_task_fields t :
  exists fields : gmap string json,
    jsonify_task t = JObj fields /\
    dom fields = ({[ "id"; "task"; "completed" ]} : gset string) /\
    fields !! "id" = Some (JInt (Task.id t)) /\
    fields !! "task" = Some (Task.task t) /\
    fields !! "completed" = Some (Task.completed t).
Proof.
  eexists. split; [reflexivity|]. split; [|done].
  rewrite !dom_insert_L, dom_singleton_L. set_solver.
Qed.

(** C4. List answers 200 with an array that has one object per stored
    task, in the order of the store, each object with exactly the fields
    [id], [task] and [completed] of that task; the store is left as it was,
    and on the empty store the array is [[]]. *)
Theorem get_tasks_returns_whole_store tasks :
  (exists items,
      get_tasks tasks = (Return (Response (JArr items) 200), tasks) /\
      length items = length tasks /\
      (forall i, items !! i = jsonify_task <$> tasks !! i)) /\
  (forall t,
      exists fields : gmap string json,
        jsonify_task t = JObj fields /\
        dom fields = ({[ "id"; "task"; "completed" ]} : gset string) /\
        fields !! "id" = Some (JInt (Task.id t)) /\
        fields !! "task" = Some (Task.task t) /\
        fields !! "completed" = Some (Task.completed t)) /\
  get_tasks [] = (Return (Response (JArr []) 200), []).
Proof.
  split; [|split; [apply jsonify_task_fields|done]].
  exists (jsonify_task <$> tasks). split; [done|].
  split; [apply length_fmap|]. intros i. apply list_lookup_fmap.
Qed.

(** Creates in a row, started on any store. *)
Lemma serve_creates bodies (vs : list json) tasks :
  Forall2 (fun d v => field d "task" = Some v) bodies vs ->
  serve (POST_tasks <$> bodies) tasks
  = tasks ++ imap (fun i v =>
                     Task.mk (len tasks + Z.of_nat i + 1) v (JBool false)) vs.
Proof.
  intros H. revert tasks.
  induction H as [|d v bodies vs Hd _ IH]; intros tasks.
  - simpl. by rewrite app_nil_r.
  - rewrite fmap_cons, serve_cons. simpl dispatch.
    rewrite (add_task_some d v tasks Hd). simpl.
    rewrite IH, <- app_assoc. simpl. do 2 f_equal.
    + f_equal. lia.
    + apply imap_ext. intros i x _. simpl. f_equal.
      rewrite len_app. lia.
Qed.

(** C6. After N creates on the empty store, with bodies whose ['task']
    fields are the strings [ts] (distinct or not) and nothing in between,
    list answers with exactly N objects, the i-th of them the i-th task
    created, with [completed = False]. *)
Theorem creates_then_list bodies (ts : list string) :
  Forall2 (fun d t => field d "task" = Some (JStr t)) bodies ts ->
  exists items,
    (get_tasks (serve (POST_tasks <$> bodies) [])).1
    = Return (Response (JArr items) 200) /\
    length items = length ts /\
    (forall i t,
        ts !! i = Some t ->
        items !! i
        = Some (jsonify_task
                  (Task.mk (Z.of_nat i + 1) (JStr t) (JBool false)))).
Proof.
  intros H.
  assert (Hs : serve (POST_tasks <$> bodies) []
               = imap (fun i t =>
                         Task.mk (Z.of_nat i + 1) (JStr t) (JBool false)) ts).
  { rewrite (serve_creates bodies (JStr <$> ts)).
    - simpl. rewrite imap_fmap. apply imap_ext. by intros i t _.
    - by apply Forall2_fmap_r. }
  rewrite Hs. eexists. split; [reflexivity|].
  split; [by rewrite length_fmap, length_imap|].
  intros i t Hi. rewrite list_lookup_fmap, list_lookup_imap, Hi. done.
Qed.

Lemma creates_then_list_witness :
  exists items,
    (get_tasks (serve (POST_tasks <$> [task_body (JStr "a");
                                        task_body (JStr "b")]) [])).1
    = Return (Response (JArr items) 200) /\
    length items = length ["a"; "b"] /\
    (forall i t,
        ["a"; "b"] !! i = Some t ->
        items !! i
        = Some (jsonify_task
                  (Task.mk (Z.of_nat i + 1) (JStr t) (JBool false)))).
Proof.
  apply (creates_then_list [task_body (JStr "a"); task_body (JStr "b")]
           ["a"; "b"]).
  repeat constructor.
Defined.

(** ** The numbering of the store *)

Lemma first_at_first_match i t tasks :
  first_at i t tasks -> first_match (Task.id t) tasks = Some (i, t).
Proof.
  intros [Hi Hbefore]. apply list_find_Some.
  split; [done|]. split; [done|]. intros j u Hj Hlt. by apply (Hbefore j u).
Qed.

Lemma numbered_nil : numbered [].
Proof. by intros i t. Qed.

Lemma numbered_add_task data tasks :
  numbered tasks -> numbered (add_task data tasks).2.
Proof.
  intros Hnum. unfold add_task.
  destruct (py_getitem data "task") as [e|v]; [done|]. simpl.
  intros i t Hi. apply lookup_app_Some in Hi as [Hi|[Hge Hi]].
  - by apply Hnum.
  - apply list_lookup_singleton_Some in Hi as [Hi <-]. simpl.
    unfold len. lia.
Qed.

Lemma numbered_update_task task_id data tasks :
  numbered tasks -> numbered (update_task task_id data tasks).2.
Proof.
  intros Hnum i t' Hi.
  destruct (Forall2_lookup_r _ _ _ _ _ (update_task_keeps task_id data tasks) Hi)
    as (t & Ht & Hid & _).
  rewrite Hid. by apply Hnum.
Qed.

Lemma reachable_numbered tasks : reachable tasks -> numbered tasks.
Proof.
  induction 1;
    auto using numbered_nil, numbered_add_task, numbered_update_task.
Qed.

(** In a numbered store a task is the first, and the only one, with its
    id. *)
Lemma numbered_inj tasks (i j : nat) t u :
  numbered tasks ->
  tasks !! i = Some t -> tasks !! j = Some u -> Task.id t = Task.id u ->
  i = j.
Proof.
  intros Hnum Hi Hj Heq.
  apply Hnum in Hi. apply Hnum in Hj. lia.
Qed.

Lemma numbered_first_at tasks i t :
  numbered tasks -> tasks !! i = Some t -> first_at i t tasks.
Proof.
  intros Hnum Hi. split; [done|]. intros j u Hj Hlt Heq.
  pose proof (numbered_inj tasks j i u t Hnum Hj Hi Heq). lia.
Qed.

(** ** Update *)

(** What one pass of the loop does at its first match, for an object
    body. *)
Lemma update_task_at tasks i t fields :
  first_at i t tasks ->
  update_task (Task.id t) (JObj fields) tasks
  = (Return (Response
               (jsonify_task
                  (Task.mk (Task.id t) (Task.task t)
                     (default (Task.completed t) (fields !! "completed"))))
               200),
     <[i := Task.mk (Task.id t) (Task.task t)
              (default (Task.completed t) (fields !! "completed"))]> tasks).
Proof.
  intros Hfirst.
  by rewrite (update_task_hit _ _ _ _ _ (first_at_first_match _ _ _ Hfirst)).
Qed.

(** A body that is no dict has no [get]: the exception escapes at the first
    match, before anything is assigned. *)
Lemma update_task_not_a_dict tasks i t data :
  first_at i t tasks ->
  (forall fields, data <> JObj fields) ->
  update_task (Task.id t) data tasks = (Raise AttributeError, tasks).
Proof.
  intros Hfirst Hnd.
  rewrite (update_task_hit _ data _ _ _ (first_at_first_match _ _ _ Hfirst)).
  destruct data; try done. by destruct (Hnd fields).
Qed.

Lemma task_eta t : Task.mk (Task.id t) (Task.task t) (Task.completed t) = t.
Proof. by destruct t. Qed.

(** C2. When [t], at position [i], is the first stored task with id
    [task_id], an update with an object body answers 200 with that task
    after setting its [completed] to the body's ['completed'] field if the
    body has one, and to its old value otherwise; the task stays at
    position [i].  With the empty object as body the store is left as it
    was, and so it is for any body without a ['completed'] field. *)
Theorem update_task_sets_completed_of_first_match tasks i t fields :
  first_at i t tasks ->
  let c := default (Task.completed t) (fields !! "completed") in
  let t' := Task.mk (Task.id t) (Task.task t) c in
  update_task (Task.id t) (JObj fields) tasks
  = (Return (Response (jsonify_task t') 200), <[i := t']> tasks) /\
  (forall v, fields !! "completed" = Some v -> c = v) /\
  (fields !! "completed" = None -> c = Task.completed t) /\
  update_task (Task.id t) (JObj ∅) tasks
  = (Return (Response (jsonify_task t) 200), tasks) /\
  (forall data,
      field data "completed" = None ->
      (update_task (Task.id t) data tasks).2 = tasks).
Proof.
  intros Hfirst c t'. pose proof Hfirst as [Hi _].
  split; [by apply update_task_at|].
  split; [by intros v Hv; subst c; rewrite Hv|].
  split; [by intros Hv; subst c; rewrite Hv|].
  split.
  - rewrite (update_task_at tasks i t ∅ Hfirst), lookup_empty. simpl.
    by rewrite task_eta, list_insert_id.
  - intros data Hnone.
    rewrite (update_task_hit _ data _ _ _ (first_at_first_match _ _ _ Hfirst)).
    destruct data; simpl; try done.
    simpl in Hnone. rewrite Hnone. simpl.
    by rewrite task_eta, list_insert_id.
Qed.

Lemma update_task_sets_completed_of_first_match_witness :
  let tasks := [Task.mk 1 (JStr "a") (JBool false);
                Task.mk 2 (JStr "b") (JBool false)] in
  let t := Task.mk 2 (JStr "b") (JBool false) in
  let fields : gmap string json := {[ "completed" := JBool true ]} in
  let c := default (Task.completed t) (fields !! "completed") in
  let t' := Task.mk (Task.id t) (Task.task t) c in
  update_task (Task.id t) (JObj fields) tasks
  = (Return (Response (jsonify_task t') 200), <[1%nat := t']> tasks) /\
  (forall v, fields !! "completed" = Some v -> c = v) /\
  (fields !! "completed" = None -> c = Task.completed t) /\
  update_task (Task.id t) (JObj ∅) tasks
  = (Return (Response (jsonify_task t) 200), tasks) /\
  (forall data,
      field data "completed" = None ->
      (update_task (Task.id t) data tasks).2 = tasks).
Proof.
  apply (update_task_sets_completed_of_first_match
           [Task.mk 1 (JStr "a") (JBool false);
            Task.mk 2 (JStr "b") (JBool false)]
           1%nat (Task.mk 2 (JStr "b") (JBool false))
           {[ "completed" := JBool true ]}).
  split; [reflexivity|].
  intros [|[|j]] u Hj Hlt; [|lia|lia].
  injection Hj as <-. simpl. lia.
Defined.

(** C3. When no stored task has id [task_id], an update answers 404 with
    the body [{"error": "Task not found"}], whatever the request body is;
    that body is the serialisation of no task, and the store is left as it
    was. *)
Theorem update_task_unknown_id tasks task_id data :
  Forall (fun t => Task.id t <> task_id) tasks ->
  update_task task_id data tasks
  = (Return (Response (JObj {[ "error" := JStr "Task not found" ]}) 404),
     tasks) /\
  (forall t, JObj {[ "error" := JStr "Task not found" ]} <> jsonify_task t).
Proof.
  intros Hnone. split; [by apply update_task_miss|].
  intros t Heq.
  pose proof (f_equal (fun d => field d "error") Heq) as Herr.
  vm_compute in Herr. discriminate.
Qed.

Lemma update_task_unknown_id_witness :
  update_task 9999 (completed_body (JBool true))
    [Task.mk 1 (JStr "a") (JBool false)]
  = (Return (Response (JObj {[ "error" := JStr "Task not found" ]}) 404),
     [Task.mk 1 (JStr "a") (JBool false)]) /\
  (forall t, JObj {[ "error" := JStr "Task not found" ]} <> jsonify_task t).
Proof.
  apply (update_task_unknown_id [Task.mk 1 (JStr "a") (JBool false)] 9999).
  repeat constructor. simpl. lia.
Defined.

(** C5. An update with body [{"completed": true}] for the id of a stored
    task [t] answers 200 and changes the store at the position of [t]
    alone, where [id] and [task] stay and [completed] becomes [True]; every
    other position holds the task it held before and the store keeps its
    length.  This is so in every store reached by the service, and in any
    list of tasks when [t] is the first one with its id. *)
Theorem update_task_true_changes_one_field tasks i t :
  tasks !! i = Some t ->
  reachable tasks \/ first_at i t tasks ->
  exists tasks',
    update_task (Task.id t) (completed_body (JBool true)) tasks
    = (Return (Response
                 (jsonify_task (Task.mk (Task.id t) (Task.task t) (JBool true)))
                 200),
       tasks') /\
    length tasks' = length tasks /\
    tasks' !! i = Some (Task.mk (Task.id t) (Task.task t) (JBool true)) /\
    (forall j, j <> i -> tasks' !! j = tasks !! j).
Proof.
  intros Hi Hcase.
  assert (Hfirst : first_at i t tasks).
  { destruct Hcase as [Hreach|Hfirst]; [|done].
    by apply numbered_first_at; [apply reachable_numbered|]. }
  unfold completed_body.
  rewrite (update_task_at tasks i t _ Hfirst), lookup_singleton_eq. simpl.
  eexists. split; [reflexivity|].
  split; [apply length_insert|].
  split.
  - apply list_lookup_insert_eq. by eapply lookup_lt_Some.
  - intros j Hj. by apply list_lookup_insert_ne.
Qed.

Lemma update_task_true_changes_one_field_witness :
  exists tasks',
    update_task 2 (completed_body (JBool true))
      [Task.mk 1 (JStr "a") (JBool false); Task.mk 2 (JStr "b") (JBool false)]
    = (Return (Response
                 (jsonify_task (Task.mk 2 (JStr "b") (JBool true))) 200),
       tasks') /\
    length tasks' = 2%nat /\
    tasks' !! 1%nat = Some (Task.mk 2 (JStr "b") (JBool true)) /\
    (forall j, j <> 1%nat ->
               tasks' !! j
               = [Task.mk 1 (JStr "a") (JBool false);
                  Task.mk 2 (JStr "b") (JBool false)] !! j).
Proof.
  apply (update_task_true_changes_one_field
           [Task.mk 1 (JStr "a") (JBool false);
            Task.mk 2 (JStr "b") (JBool false)]
           1%nat (Task.mk 2 (JStr "b") (JBool false))).
  - reflexivity.
  - left.
    apply (reachable_add (task_body (JStr "b"))
             [Task.mk 1 (JStr "a") (JBool false)]).
    apply (reachable_add (task_body (JStr "a")) []).
    apply reachable_init.
Defined.

(** ** What no request can change *)

Lemma update_task_identity task_id data tasks :
  identity <$> (update_task task_id data tasks).2 = identity <$> tasks.
Proof.
  symmetry. apply list_eq_Forall2, Forall2_fmap.
  eapply Forall2_impl; [apply update_task_keeps|].
  intros t t' [Hid Htask]. unfold identity. simpl. congruence.
Qed.

Lemma dispatch_identity_prefix req tasks :
  identity <$> tasks `prefix_of` identity <$> (dispatch req tasks).2.
Proof.
  destruct req as [|data|task_id data]; simpl.
  - done.
  - unfold add_task. destruct (py_getitem data "task"); simpl; [done|].
    rewrite fmap_app. by apply prefix_app_r.
  - by rewrite update_task_identity.
Qed.

Lemma serve_identity_prefix reqs tasks :
  identity <$> tasks `prefix_of` identity <$> serve reqs tasks.
Proof.
  revert tasks. induction reqs as [|req reqs IH]; intros tasks; [done|].
  rewrite serve_cons. etrans; [apply dispatch_identity_prefix|apply IH].
Qed.

(** C7. Whatever requests are served, one or many, the [(id, task)] pairs
    of the store before are a prefix of those after: tasks keep their
    positions, none is dropped or moved, new ones come at the end, and the
    [id] and [task] of a stored task stay as they were created.  A list
    leaves the store as it was, an update leaves every [(id, task)] pair
    and the length as they were, and only a create may add a task. *)
Theorem requests_keep_order_and_identity reqs req tasks :
  identity <$> tasks `prefix_of` identity <$> (dispatch req tasks).2 /\
  identity <$> tasks `prefix_of` identity <$> serve reqs tasks /\
  (forall (i : nat) t,
      tasks !! i = Some t ->
      exists t',
        serve reqs tasks !! i = Some t' /\
        Task.id t' = Task.id t /\ Task.task t' = Task.task t) /\
  (get_tasks tasks).2 = tasks /\
  (forall task_id data,
      identity <$> (update_task task_id data tasks).2 = identity <$> tasks /\
      length (update_task task_id data tasks).2 = length tasks) /\
  (forall data,
      (add_task data tasks).2 = tasks \/
      exists t, (add_task data tasks).2 = tasks ++ [t]).
Proof.
  split; [apply dispatch_identity_prefix|].
  split; [apply serve_identity_prefix|].
  split; [|split; [done|split]].
  - intros i t Hi.
    destruct (serve_identity_prefix reqs tasks) as [k Hk].
    assert (Hlook : (identity <$> serve reqs tasks) !! i = Some (identity t)).
    { rewrite Hk. apply lookup_app_l_Some.
      by rewrite list_lookup_fmap, Hi. }
    rewrite list_lookup_fmap in Hlook.
    destruct (serve reqs tasks !! i) as [t'|]; [|done].
    exists t'. injection Hlook as Hid Htask. done.
  - intros task_id data. split; [apply update_task_identity|].
    by rewrite <- (length_fmap identity), update_task_identity, length_fmap.
  - intros data. unfold add_task.
    destruct (py_getitem data "task"); simpl; [by left|right; by eexists].
Qed.

Lemma requests_keep_order_and_identity_witness :
  exists t',
    serve [PUT_tasks 1 (completed_body (JBool true));
           POST_tasks (task_body (JStr "b"))]
      [Task.mk 1 (JStr "a") (JBool false)] !! 0%nat = Some t' /\
    Task.id t' = 1 /\ Task.task t' = JStr "a".
Proof.
  apply (proj1 (proj2 (proj2 (requests_keep_order_and_identity
           [PUT_tasks 1 (completed_body (JBool true));
            POST_tasks (task_body (JStr "b"))]
           GET_tasks
           [Task.mk 1 (JStr "a") (JBool false)])))
           0%nat (Task.mk 1 (JStr "a") (JBool false))).
  reflexivity.
Defined.

(** ** Ids in the stores the service reaches *)

Lemma serve_reachable reqs tasks :
  reachable tasks -> reachable (serve reqs tasks).
Proof.
  revert tasks. induction reqs as [|req reqs IH]; intros tasks H; [done|].
  rewrite serve_cons. apply IH.
  destruct req; simpl; [done|by constructor|by constructor].
Qed.

(** C9. In a store reached from the empty one by creates and updates, the
    task at position [i] (from 0) has id [i + 1]; so the ids are 1, ..., N
    in this order for a store of N tasks, no id occurs twice, and the id of
    an update is the id of at most one position. *)
Theorem reachable_ids_are_positions tasks :
  reachable tasks ->
  (forall (i : nat) t, tasks !! i = Some t -> Task.id t = Z.of_nat i + 1) /\
  Task.id <$> tasks = seqZ 1 (len tasks) /\
  NoDup (Task.id <$> tasks) /\
  (forall task_id (i j : nat) t u,
      tasks !! i = Some t -> tasks !! j = Some u ->
      Task.id t = task_id -> Task.id u = task_id ->
      i = j).
Proof.
  intros Hreach. pose proof (reachable_numbered tasks Hreach) as Hnum.
  assert (Hseq : Task.id <$> tasks = seqZ 1 (len tasks)).
  { apply list_eq. intros i. rewrite list_lookup_fmap.
    destruct (tasks !! i) as [t|] eqn:Hi; simpl.
    - symmetry. apply lookup_seqZ. split; [rewrite (Hnum i t Hi); lia|].
      apply lookup_lt_Some in Hi. unfold len. lia.
    - symmetry. apply lookup_seqZ_ge.
      apply lookup_ge_None in Hi. unfold len. lia. }
  split; [exact Hnum|]. split; [exact Hseq|].
  split; [rewrite Hseq; apply NoDup_seqZ|].
  intros task_id i j t u Hi Hj Ht Hu.
  apply (numbered_inj tasks i j t u Hnum Hi Hj). congruence.
Qed.

Lemma reachable_ids_are_positions_witness :
  let tasks := serve [POST_tasks (task_body (JStr "a"));
                      POST_tasks JNull;
                      PUT_tasks 1 (completed_body (JBool true));
                      POST_tasks (task_body (JStr "b"))] [] in
  (forall (i : nat) t, tasks !! i = Some t -> Task.id t = Z.of_nat i + 1) /\
  Task.id <$> tasks = seqZ 1 (len tasks) /\
  NoDup (Task.id <$> tasks) /\
  (forall task_id (i j : nat) t u,
      tasks !! i = Some t -> tasks !! j = Some u ->
      Task.id t = task_id -> Task.id u = task_id ->
      i = j).
Proof.
  apply (reachable_ids_are_positions
           (serve [POST_tasks (task_body (JStr "a"));
                   POST_tasks JNull;
                   PUT_tasks 1 (completed_body (JBool true));
                   POST_tasks (task_body (JStr "b"))] [])).
  apply serve_reachable, reachable_init.
Defined.

(** ** The loop of [update_task], one iteration at a time *)

Lemma update_task_skip task_id data x rest :
  Task.id x <> task_id ->
  update_task task_id data (x :: rest)
  = ((update_task task_id data rest).1,
     x :: (update_task task_id data rest).2).
Proof.
  intros Hne. simpl. rewrite decide_False by done.
  by destruct (update_task task_id data rest).
Qed.

Lemma update_task_stop task_id data x rest :
  Task.id x = task_id ->
  update_task task_id data (x :: rest)
  = match py_get data "completed" (Task.completed x) with
    | inl e => (Raise e, x :: rest)
    | inr c =>
        (Return (Response
                   (jsonify_task (Task.mk (Task.id x) (Task.task x) c)) 200),
         Task.mk (Task.id x) (Task.task x) c :: rest)
    end.
Proof. intros Heq. simpl. by rewrite decide_True by done. Qed.

(** ** Exceptions and the store *)




(** X2. An update for the id of a stored task with a parsed body that is no
    dict ([None], a list, a string, a number) raises [AttributeError] at
    [data.get] and assigns nothing, while the same body with an id that is
    not stored still gets the 404 answer: the body is only looked at once a
    task has matched. *)
Theorem update_task_body_read_after_match tasks i t data task_id :
  first_at i t tasks ->
  (forall fields, data <> JObj fields) ->
  Forall (fun u => Task.id u <> task_id) tasks ->
  update_task (Task.id t) data tasks = (Raise AttributeError, tasks) /\
  update_task task_id data tasks = (Return (Response not_found 404), tasks).
Proof.
  intros Hfirst Hnd Hmiss. split; [|by apply update_task_miss].
  rewrite (update_task_hit _ data _ _ _ (first_at_first_match _ _ _ Hfirst)).
  destruct data; try done. by destruct (Hnd fields).
Qed.

Lemma update_task_body_read_after_match_witness :
  update_task 1 JNull [Task.mk 1 (JStr "a") (JBool false)]
  = (Raise AttributeError, [Task.mk 1 (JStr "a") (JBool false)]) /\
  update_task 2 JNull [Task.mk 1 (JStr "a") (JBool false)]
  = (Return (Response not_found 404), [Task.mk 1 (JStr "a") (JBool false)]).
Proof.
  apply (update_task_body_read_after_match
           [Task.mk 1 (JStr "a") (JBool false)] 0%nat
           (Task.mk 1 (JStr "a") (JBool false)) JNull 2).
  - split; [reflexivity|]. intros j u _ Hlt. lia.
  - intros fields H. discriminate.
  - repeat constructor. simpl. lia.
Defined.

(** ** When an update answers 404 *)

Lemma update_task_404_iff task_id data tasks :
  (update_task task_id data tasks).1 = Return (Response not_found 404) <->
  Forall (fun t => Task.id t <> task_id) tasks.
Proof.
  split; [|by intros H; rewrite update_task_miss].
  induction tasks as [|x rest IH]; intros H; [constructor|].
  destruct (decide (Task.id x = task_id)) as [Heq|Hne].
  - rewrite (update_task_stop _ _ _ _ Heq) in H.
    destruct (py_get _ _ _); simpl in H; [done|].
    injection H as _ H. lia.
  - rewrite (update_task_skip _ _ _ _ Hne) in H. simpl in H.
    constructor; [done|by apply IH].
Qed.


(** In a store the service has reached the stored ids are 1, ..., N. *)
Lemma numbered_id_stored tasks task_id :
  numbered tasks ->
  Exists (fun t => Task.id t = task_id) tasks <-> 1 <= task_id <= len tasks.
Proof.
  intros Hnum. rewrite Exists_exists. unfold len. split.
  - intros (t & Hin & Hid). apply list_elem_of_lookup in Hin as [i Hi].
    pose proof (lookup_lt_Some _ _ _ Hi). rewrite <- Hid, (Hnum i t Hi). lia.
  - intros Hrange.
    destruct (lookup_lt_is_Some_2 tasks (Z.to_nat (task_id - 1))) as [t Ht];
      [lia|].
    exists t. split; [by eapply list_elem_of_lookup_2|].
    rewrite (Hnum _ t Ht). lia.
Qed.

(** X4. In a store reached from the empty one, an update answers 404
    exactly for the ids below 1 or above the number of stored tasks. *)
Theorem reachable_update_404_outside_range tasks task_id data :
  reachable tasks ->
  (update_task task_id data tasks).1 = Return (Response not_found 404) <->
  task_id < 1 \/ len tasks < task_id.
Proof.
  intros Hreach. rewrite update_task_404_iff.
  pose proof (numbered_id_stored tasks task_id (reachable_numbered _ Hreach))
    as Hstored.
  rewrite List.Forall_Exists_neg, Hstored. lia.
Qed.

Lemma reachable_update_404_outside_range_witness :
  (update_task 3 JNull
     [Task.mk 1 (JStr "a") (JBool false); Task.mk 2 (JStr "b") (JBool false)]).1
  = Return (Response not_found 404) <->
  3 < 1 \/
  len [Task.mk 1 (JStr "a") (JBool false); Task.mk 2 (JStr "b") (JBool false)]
  < 3.
Proof.
  apply (reachable_update_404_outside_range
           [Task.mk 1 (JStr "a") (JBool false);
            Task.mk 2 (JStr "b") (JBool false)] 3 JNull).
  apply (reachable_add (task_body (JStr "b"))
           [Task.mk 1 (JStr "a") (JBool false)]).
  apply (reachable_add (task_body (JStr "a")) []).
  apply reachable_init.
Defined.


(** ** Updates one after the other *)

(** X5. Sending the same update twice is the same as sending it once: the
    second request gets the answer of the first and leaves the store the
    first one left, for every id, body and list of tasks. *)
Theorem update_task_twice task_id data tasks :
  update_task task_id data (update_task task_id data tasks).2
  = update_task task_id data tasks.
Proof.
  induction tasks as [|x rest IH]; [done|].
  destruct (decide (Task.id x = task_id)) as [Heq|Hne].
  - rewrite (update_task_stop _ _ x rest Heq).
    destruct data; simpl; rewrite ?decide_True by done; try done.
    by destruct (fields !! "completed").
  - rewrite (update_task_skip _ _ x rest Hne). cbn [snd].
    rewrite (update_task_skip _ _ x _ Hne), IH. done.
Qed.

(** X6. The last write wins: after any update for an id, an update for the
    same id whose body has a ['completed'] field gives the answer and the
    store it would have given without the earlier one. *)
Theorem update_task_overwrites task_id data fields v tasks :
  fields !! "completed" = Some v ->
  update_task task_id (JObj fields) (update_task task_id data tasks).2
  = update_task task_id (JObj fields) tasks.
Proof.
  intros Hv. induction tasks as [|x rest IH]; [done|].
  destruct (decide (Task.id x = task_id)) as [Heq|Hne].
  - rewrite (update_task_stop _ data x rest Heq).
    destruct (py_get data "completed" (Task.completed x)); simpl;
      rewrite ?decide_True by done; simpl; by rewrite Hv.
  - rewrite (update_task_skip _ data x rest Hne). cbn [snd].
    rewrite !(update_task_skip _ (JObj fields) x _ Hne), IH. done.
Qed.

Lemma update_task_overwrites_witness :
  update_task 1 (completed_body (JBool false))
    (update_task 1 (completed_body (JBool true))
       [Task.mk 1 (JStr "a") (JBool false)]).2
  = update_task 1 (completed_body (JBool false))
      [Task.mk 1 (JStr "a") (JBool false)].
Proof.
  apply (update_task_overwrites 1 (completed_body (JBool true))
           {[ "completed" := JBool false ]} (JBool false)
           [Task.mk 1 (JStr "a") (JBool false)]).
  reflexivity.
Defined.

(** X7. Updates for two different ids do not see each other: each gets the
    answer it would get alone, and the store they leave does not depend on
    which of the two came first. *)
Theorem update_task_other_id id1 id2 data1 data2 tasks :
  id1 <> id2 ->
  update_task id2 data2 (update_task id1 data1 tasks).2
  = ((update_task id2 data2 tasks).1,
     (update_task id1 data1 (update_task id2 data2 tasks).2).2).
Proof.
  intros Hne. induction tasks as [|x rest IH]; [done|].
  destruct (decide (Task.id x = id1)) as [H1|H1];
    destruct (decide (Task.id x = id2)) as [H2|H2]; [congruence| | |].
  - rewrite (update_task_skip id2 data2 x rest H2). cbn [fst snd].
    rewrite !(update_task_stop id1 data1 x _ H1).
    destruct (py_get data1 "completed" (Task.completed x)); simpl;
      rewrite decide_False by done;
      by destruct (update_task id2 data2 rest).
  - rewrite (update_task_skip id1 data1 x rest H1). cbn [fst snd].
    rewrite !(update_task_stop id2 data2 x _ H2).
    destruct (py_get data2 "completed" (Task.completed x)); simpl;
      rewrite decide_False by done;
      by destruct (update_task id1 data1 rest).
  - rewrite (update_task_skip id1 data1 x rest H1),
      (update_task_skip id2 data2 x rest H2). cbn [fst snd].
    rewrite (update_task_skip id2 data2 x _ H2),
      (update_task_skip id1 data1 x _ H1), IH. done.
Qed.

Lemma update_task_other_id_witness :
  let tasks := [Task.mk 1 (JStr "a") (JBool false);
                Task.mk 2 (JStr "b") (JBool false)] in
  update_task 2 (completed_body (JBool true))
    (update_task 1 (completed_body (JBool true)) tasks).2
  = ((update_task 2 (completed_body (JBool true)) tasks).1,
     (update_task 1 (completed_body (JBool true))
        (update_task 2 (completed_body (JBool true)) tasks).2).2).
Proof.
  apply (update_task_other_id 1 2). lia.
Defined.

(** ** What an update answers and what it touches *)



(** X9. Whatever the body, an update leaves every stored task with another
    id exactly as it was, at the position where it was. *)
Theorem update_task_leaves_other_ids task_id data tasks (j : nat) u :
  tasks !! j = Some u ->
  Task.id u <> task_id ->
  (update_task task_id data tasks).2 !! j = Some u.
Proof.
  revert j. induction tasks as [|x rest IH]; intros j Hj Hne; [done|].
  destruct (decide (Task.id x = task_id)) as [Heq|Hx].
  - rewrite (update_task_stop _ _ x rest Heq).
    destruct j as [|j]; simpl in Hj.
    + injection Hj as ->. done.
    + by destruct (py_get _ _ _).
  - rewrite (update_task_skip _ _ x rest Hx). cbn [snd].
    destruct j as [|j]; [done|]. simpl in *. by apply IH.
Qed.

Lemma update_task_leaves_other_ids_witness :
  (update_task 1 (completed_body (JBool true))
     [Task.mk 1 (JStr "a") (JBool false);
      Task.mk 2 (JStr "b") (JBool false)]).2 !! 1%nat
  = Some (Task.mk 2 (JStr "b") (JBool false)).
Proof.
  apply (update_task_leaves_other_ids 1 (completed_body (JBool true))
           [Task.mk 1 (JStr "a") (JBool false);
            Task.mk 2 (JStr "b") (JBool false)]
           1%nat (Task.mk 2 (JStr "b") (JBool false))).
  - reflexivity.
  - simpl. lia.
Defined.

(** ** The store after any run of requests *)

Lemma add_task_none data tasks :
  field data "task" = None -> (add_task data tasks).2 = tasks.
Proof.
  intros Hnone. unfold add_task.
  destruct (py_getitem data "task") as [e|v] eqn:Hget; [done|].
  apply py_getitem_inr in Hget. congruence.
Qed.

Lemma update_task_len task_id data tasks :
  len (update_task task_id data tasks).2 = len tasks.
Proof.
  unfold len.
  by rewrite <- (length_fmap identity), update_task_identity, length_fmap.
Qed.

Lemma serve_identity reqs tasks :
  identity <$> serve reqs tasks
  = (identity <$> tasks)
    ++ imap (fun i v => (len tasks + Z.of_nat i + 1, v)) (omap posted reqs).
Proof.
  revert tasks. induction reqs as [|req reqs IH]; intros tasks.
  - simpl. by rewrite app_nil_r.
  - rewrite serve_cons, IH. destruct req as [|data|task_id data]; simpl.
    + done.
    + destruct (field data "task") as [v|] eqn:Hv.
      * rewrite (add_task_some data v tasks Hv). simpl.
        rewrite fmap_app, <- app_assoc. simpl. f_equal. f_equal.
        { unfold identity. simpl. f_equal. lia. }
        apply imap_ext. intros i x _. simpl. f_equal.
        rewrite len_app. lia.
      * by rewrite (add_task_none data tasks Hv).
    + by rewrite update_task_identity, update_task_len.
Qed.

(** X10. After any run of lists, creates and updates from the empty store,
    failed ones included, the stored tasks are the creates whose body had a
    ['task'] field, in the order they came in: the k-th of them has id [k]
    and that field as its ['task'].  In particular the store holds as many
    tasks as there were such creates. *)
Theorem served_store_is_the_creates reqs :
  identity <$> serve reqs []
  = imap (fun i v => (Z.of_nat i + 1, v)) (omap posted reqs) /\
  length (serve reqs []) = length (omap posted reqs).
Proof.
  assert (H : identity <$> serve reqs []
              = imap (fun i v => (Z.of_nat i + 1, v)) (omap posted reqs)).
  { rewrite serve_identity. simpl. by apply imap_ext. }
  split; [exact H|].
  by rewrite <- (length_fmap identity), H, length_imap.
Qed.

(** X11. The object a create answers with is what a list shows right after
    it as its last element, behind the elements a list showed before. *)
Theorem add_task_then_get_tasks data tasks r tasks' :
  add_task data tasks = (Return r, tasks') ->
  exists items,
    get_tasks tasks = (Return (Response (JArr items) 200), tasks) /\
    get_tasks tasks'
    = (Return (Response (JArr (items ++ [body r])) 200), tasks').
Proof.
  intros Hadd. unfold add_task in Hadd.
  destruct (py_getitem data "task") as [e|v]; [done|].
  injection Hadd as <- <-. eexists. split; [reflexivity|].
  unfold get_tasks, jsonify_tasks. by rewrite fmap_app.
Qed.

Lemma add_task_then_get_tasks_witness :
  exists items,
    get_tasks [] = (Return (Response (JArr items) 200), []) /\
    get_tasks [Task.mk 1 (JStr "a") (JBool false)]
    = (Return
         (Response
            (JArr (items
                   ++ [body (Response
                               (jsonify_task
                                  (Task.mk 1 (JStr "a") (JBool false)))
                               201)]))
            200),
       [Task.mk 1 (JStr "a") (JBool false)]).
Proof.
  apply (add_task_then_get_tasks (task_body (JStr "a")) []).
  reflexivity.
Defined.

(** X12. In a store reached from the empty one, the id a create hands out
    addresses the task it has just stored: an update with that id and a
    body [{"completed": c}] right after the create answers 200 with that
    task, [completed] set to [c], and changes the last position alone. *)
Theorem reachable_create_then_update tasks data v c :
  reachable tasks ->
  field data "task" = Some v ->
  update_task (len tasks + 1) (completed_body c) (add_task data tasks).2
  = (Return (Response (jsonify_task (Task.mk (len tasks + 1) v c)) 200),
     tasks ++ [Task.mk (len tasks + 1) v c]).
Proof.
  intros Hreach Hv.
  pose proof (numbered_add_task data tasks (reachable_numbered _ Hreach))
    as Hnum.
  rewrite (add_task_some data v tasks Hv) in *. cbn [snd] in *.
  pose (t := Task.mk (len tasks + 1) v (JBool false)).
  assert (Hfirst : first_at (length tasks) t (tasks ++ [t])).
  { apply numbered_first_at; [done|]. by rewrite lookup_app_r, Nat.sub_diag. }
  unfold completed_body.
  change (len tasks + 1) with (Task.id t) at 1.
  rewrite (update_task_at _ _ t _ Hfirst), lookup_singleton_eq. simpl.
  f_equal. rewrite insert_app_r_alt, Nat.sub_diag by done. done.
Qed.

Lemma reachable_create_then_update_witness :
  update_task (len [] + 1) (completed_body (JBool true))
    (add_task (task_body (JStr "buy milk")) []).2
  = (Return (Response
               (jsonify_task (Task.mk (len [] + 1) (JStr "buy milk")
                                (JBool true))) 200),
     [] ++ [Task.mk (len [] + 1) (JStr "buy milk") (JBool true)]).
Proof.
  apply (reachable_create_then_update [] (task_body (JStr "buy milk"))).
  - apply reachable_init.
  - reflexivity.
Defined.
